(** * napari-aicsimageio: the reader plugin of [napari_aicsimageio/core.py]

    A shallow embedding of [_load_image], [reader_function] and [get_reader],
    and the properties of the plugin that follow from them.

    The plugin is glue around three collaborators that are not part of the
    repository: the image library (format detection, reader construction, the
    reader's accessors), numpy/dask arrays (cast, squeeze, stack, compute) and
    the dask client (map, gather).  What they compute is taken as a parameter;
    what the plugin does with it is modelled from the source. *)

From Stdlib Require Import Ascii.
From stdpp Require Import gmap strings list fin_maps.

Local Open Scope string_scope.
Local Open Scope Z_scope.
Local Open Scope list_scope.

(** ** Python values, exceptions and effects *)

(** The exception classes the plugin can meet.  Only the first is named in the
    source ([except exceptions.UnsupportedFileFormatError]); [IndexError] is
    what [paths[0]] raises on an empty list, [ValueError] what [da.stack]
    raises, and the rest stand for whatever the image library lets escape. *)
Inductive Exn : Type :=
  | UnsupportedFileFormatError
  | IndexError
  | ValueError
  | FileNotFoundError
  | OtherError (name : string).

Inductive Result (A : Type) : Type :=
  | Ok (a : A)
  | Raise (e : Exn).
Arguments Ok {A} a.
Arguments Raise {A} e.

(** The dynamically typed values that cross the plugin's interfaces: the
    entries of the metadata dict and the flag handed to [_load_image]. *)
Inductive PyVal : Type :=
  | VNone
  | VBool (b : bool)
  | VInt (z : Z)
  | VStrList (l : list string).

(** Python truthiness, as [if compute:] applies it. *)
Definition truthy (v : PyVal) : bool :=
  match v with
  | VNone => false
  | VBool b => b
  | VInt z => negb (z =? 0)
  | VStrList l => match l with [] => false | _ => true end
  end.

(** [str(b)] inside an f-string. *)
Definition py_str_bool (b : bool) : string := if b then "True" else "False".

(** What the outside world can observe of a call. *)
Inductive Event : Type :=
  | EvPrint (msg : string)
  | EvClusterEnter (processes : bool)
  | EvClusterExit
  | EvNewReader (cls : string) (path : string) (chunk_by_dims : option (list ascii)).

(** Computations that log events and may raise. *)
Definition M (A : Type) : Type := (list Event * Result A)%type.

Definition ret {A} (a : A) : M A := ([], Ok a).
Definition raise {A} (e : Exn) : M A := ([], Raise e).
Definition lift {A} (r : Result A) : M A := ([], r).
Definition emit (ev : Event) : M unit := ([ev], Ok tt).

Definition bind {A B} (m : M A) (k : A -> M B) : M B :=
  match m with
  | (tr, Ok a) => let '(tr', r) := k a in (tr ++ tr', r)
  | (tr, Raise e) => (tr, Raise e)
  end.

(** [try: body  except UnsupportedFileFormatError: handler]. *)
Definition try_except_unsupported {A} (body : M A) (handler : M A) : M A :=
  match body with
  | (tr, Raise UnsupportedFileFormatError) =>
      let '(tr', r) := handler in (tr ++ tr', r)
  | other => other
  end.

Declare Scope py_scope.
Delimit Scope py_scope with py.
Notation "x <- m ;; k" := (bind m (fun x => k))
  (at level 100, m at next level, right associativity) : py_scope.
Notation "m ;;; k" := (bind m (fun _ => k))
  (at level 100, right associativity) : py_scope.
Local Open Scope py_scope.

Definition trace {A} (m : M A) : list Event := fst m.
Definition outcome {A} (m : M A) : Result A := snd m.

(** [l[0]]. *)
Definition getitem0 {A} (l : list A) : Result A :=
  match l with
  | [] => Raise IndexError
  | x :: _ => Ok x
  end.

(** [range(n)] as Python ints. *)
Definition range (n : nat) : list Z := Z.of_nat <$> seq 0 n.

(** ** Strings as the reader's dimension ordering

    [reader.dims] is a [str] such as ["STCZYX"]; the members of [Dimensions]
    are its one-character names. *)
Module Dimensions.
Definition Channel : ascii := "C"%char.
Definition SpatialY : ascii := "Y"%char.
Definition SpatialX : ascii := "X"%char.
End Dimensions.

(** [c in s]. *)
Fixpoint str_in (c : ascii) (s : string) : bool :=
  match s with
  | EmptyString => false
  | String a s' => if Ascii.eqb c a then true else str_in c s'
  end.

(** [s.index(c)]: position of the first occurrence, [ValueError] if none. *)
Fixpoint str_index (c : ascii) (s : string) : Result Z :=
  match s with
  | EmptyString => Raise ValueError
  | String a s' =>
      if Ascii.eqb c a then Ok 0
      else match str_index c s' with
           | Ok k => Ok (k + 1)
           | Raise e => Raise e
           end
  end.

(** ** Arrays *)

Inductive Dtype : Type := uint8 | uint16 | float16 | float32 | float64.

(** A dask array is a deferred computation, a numpy array is in memory. *)
Inductive Backing : Type := Dask | Numpy.

(** [np.promote_types] on these dtypes. *)
Definition promote_types (d1 d2 : Dtype) : Dtype :=
  match d1, d2 with
  | float64, _ | _, float64 => float64
  | float32, _ | _, float32 => float32
  | uint16, float16 | float16, uint16 => float32
  | float16, _ | _, float16 => float16
  | uint16, _ | _, uint16 => uint16
  | uint8, uint8 => uint8
  end.

Section Plugin.

(** The element type of arrays and numpy's element conversion are not
    modelled: floating point is kept abstract. *)
Context {elem : Type}.
Variable cast : Dtype -> elem -> elem.

(** An n-dimensional array: its shape and its elements in row-major order. *)
Record Array : Type := mkArray {
  backing : Backing;
  dtype : Dtype;
  shape : list nat;
  flat : list elem
}.

(** [a.astype(d)]. *)
Definition astype (d : Dtype) (a : Array) : Array :=
  {| backing := backing a; dtype := d; shape := shape a;
     flat := cast d <$> flat a |}.

(** [np.squeeze(a)]: drop every axis of length one. *)
Definition squeeze (a : Array) : Array :=
  {| backing := backing a; dtype := dtype a;
     shape := filter (fun n => n ≠ 1%nat) (shape a);
     flat := flat a |}.

(** [a.compute()]. *)
Definition compute_array (a : Array) : Array :=
  {| backing := Numpy; dtype := dtype a; shape := shape a; flat := flat a |}.

(** [da.stack(arrays)] along a new leading axis: the arrays must be there and
    agree on their shape, the result is deferred and has the promoted dtype. *)
Definition stack (arrays : list Array) : Result Array :=
  match arrays with
  | [] => Raise ValueError
  | a :: rest =>
      if forallb (fun b => bool_decide (shape b = shape a)) rest
      then Ok {| backing := Dask;
                 dtype := foldl promote_types (dtype a) (dtype <$> rest);
                 shape := length arrays :: shape a;
                 flat := concat (flat <$> arrays) |}
      else Raise ValueError
  end.

(** Number of elements of an array of the given shape. *)
Definition size_of (s : list nat) : nat := foldr Nat.mul 1%nat s.

(** [a[i]] for a non-negative [i]: the [i]-th block along the leading axis.
    Not used by the plugin; it says what "position [i] of the stack" is. *)
Definition item (i : nat) (a : Array) : Result Array :=
  match shape a with
  | [] => Raise IndexError
  | n :: s =>
      if (i <? n)%nat
      then Ok {| backing := backing a; dtype := dtype a; shape := s;
                 flat := take (size_of s) (drop (i * size_of s) (flat a)) |}
      else Raise IndexError
  end.

(** An array holds as many elements as its shape says. *)
Definition well_formed (a : Array) : Prop :=
  length (flat a) = size_of (shape a).

(** ** The image library *)

(** A constructed reader: its dimension ordering, its channel names and its
    lazy array.  Each accessor reads the file and may fail. *)
Record Reader : Type := mkReader {
  dims : Result string;
  get_channel_names : Result (list string);
  dask_data : Result Array
}.

(** A reader class is what [ReaderClass(path)] and
    [ReaderClass(path, chunk_by_dims=...)] do. *)
Record ReaderClass : Type := mkReaderClass {
  cls_name : string;
  construct : string -> option (list ascii) -> Result Reader
}.

(** [AICSImage.determine_reader]. *)
Variable determine_reader : string -> Result ReaderClass.

Definition new_reader (cls : ReaderClass) (path : string)
    (chunk_by_dims : option (list ascii)) : M Reader :=
  emit (EvNewReader (cls_name cls) path chunk_by_dims) ;;;
  lift (construct cls path chunk_by_dims).

(** ** The plugin *)

Inductive PathLike : Type :=
  | PathStr (path : string)
  | PathList (paths : list string).

Record LoadResult : Type := mkLoadResult {
  data : Array;
  index : Z;
  channel_axis : option Z;
  channel_names : option (list string)
}.

Definition LayerData : Type := (Array * gmap string PyVal)%type.

Definition _load_image (path : string) (cls : ReaderClass) (index : Z)
    (compute : PyVal) : M LoadResult :=
  reader <- (if truthy compute
             then new_reader cls path None
             else new_reader cls path
                    (Some [Dimensions.SpatialY; Dimensions.SpatialX])) ;;
  channel_axis <- (d <- lift (dims reader) ;;
                   if str_in Dimensions.Channel d
                   then d' <- lift (dims reader) ;;
                        k <- lift (str_index Dimensions.Channel d') ;;
                        ret (Some k)
                   else ret None) ;;
  channel_names <- match channel_axis with
                   | Some _ => names <- lift (get_channel_names reader) ;;
                               ret (Some names)
                   | None => ret None
                   end ;;
  a <- lift (dask_data reader) ;;
  ret {| data := squeeze (astype float16 a);
         index := index;
         channel_axis := channel_axis;
         channel_names := channel_names |}.

(** [paths = [path] if isinstance(path, str) else path]. *)
Definition standardize (path : PathLike) : list string :=
  match path with
  | PathStr p => [p]
  | PathList ps => ps
  end.

(** [sorted(l, key=key)]: a stable sort. *)
Fixpoint insert_by {A} (key : A -> Z) (x : A) (l : list A) : list A :=
  match l with
  | [] => [x]
  | y :: l' => if key x <=? key y then x :: l else y :: insert_by key x l'
  end.

Definition sorted {A} (key : A -> Z) (l : list A) : list A :=
  foldr (insert_by key) [] l.

(** [dask_utils.cluster_and_client(processes=...)]: the body runs between the
    set-up of the cluster and its tear-down, whatever the body's outcome. *)
Definition cluster_and_client {A} (processes : bool) (body : M A) : M A :=
  let '(tr, r) := body in
  (EvClusterEnter processes :: tr ++ [EvClusterExit], r).

(** [client.map(f, l1, l2, l3, l4)]: one task per position of the argument
    lists.  A future is the task's computation. *)
Fixpoint client_map {R} (f : string -> ReaderClass -> Z -> PyVal -> M R)
    (l1 : list string) (l2 : list ReaderClass) (l3 : list Z)
    (l4 : list PyVal) : list (M R) :=
  match l1, l2, l3, l4 with
  | a :: l1', b :: l2', c :: l3', d :: l4' =>
      f a b c d :: client_map f l1' l2' l3' l4'
  | _, _, _, _ => []
  end.

Fixpoint wait_all {R} (futures : list (M R)) : M (list R) :=
  match futures with
  | [] => ret []
  | m :: ms => r <- m ;; rs <- wait_all ms ;; ret (r :: rs)
  end.

(** The order in which the client hands back the results of finished tasks
    is the scheduler's choice. *)
Variable completion_order : list LoadResult -> list LoadResult.

(** [client.gather(futures)]: block until all tasks are done; the first
    failed task fails the gather. *)
Definition client_gather (futures : list (M LoadResult)) : M (list LoadResult) :=
  rs <- wait_all futures ;;
  ret (completion_order rs).

Definition reader_function (path : PathLike) (compute processes : bool)
    : M (list LayerData) :=
  emit (EvPrint ("Reader will load image in-memory: " +:+ py_str_bool compute)) ;;;
  let paths := standardize path in
  p0 <- lift (getitem0 paths) ;;
  ReaderClass <- lift (determine_reader p0) ;;
  layer <- cluster_and_client processes (
    let futures :=
      client_map _load_image
        paths
        ((fun i => ReaderClass) <$> range (length paths))
        ((fun i => i) <$> range (length paths))
        ((fun compute => VInt compute) <$> range (length paths)) in
    results <- client_gather futures ;;
    let results := sorted index results in
    data <- lift (stack (data <$> results)) ;;
    let data := if compute then compute_array data else data in
    r0 <- lift (getitem0 results) ;;
    let channel_names := channel_names r0 in
    let channel_axis := channel_axis r0 in
    let channel_axis := match channel_axis with
                        | Some k => Some (k + 1)
                        | None => None
                        end in
    let meta : gmap string PyVal :=
      <["name" := from_option VStrList VNone channel_names]>
      (<["channel_axis" := from_option VInt VNone channel_axis]>
      (<["is_pyramid" := VBool false]>
      (<["visible" := VBool false]> ∅))) in
    ret (data, meta)) ;;
  ret [layer].

(** [partial(reader_function, compute=..., processes=...)]. *)
Inductive ReaderFunction : Type :=
  | partial_reader_function (compute processes : bool).

Definition call (f : ReaderFunction) (path : PathLike) : M (list LayerData) :=
  match f with
  | partial_reader_function compute processes =>
      reader_function path compute processes
  end.

(** [get_reader(path, compute, processes=True)]; [None] for [processes] is a
    call that leaves the argument out. *)
Definition get_reader (path : PathLike) (compute : bool)
    (processes : option bool) : M (option ReaderFunction) :=
  let processes := default true processes in
  let paths := standardize path in
  try_except_unsupported
    (p0 <- lift (getitem0 paths) ;;
     _ <- lift (determine_reader p0) ;;
     ret (Some (partial_reader_function compute processes)))
    (ret None).

End Plugin.

(** The chunking a per-path task asks of its reader, as a function of the
    flag the task was handed: none when the flag is truthy, the YX plane
    otherwise. *)
Definition chunk_by_dims_for (compute : PyVal) : option (list ascii) :=
  if truthy compute then None
  else Some [Dimensions.SpatialY; Dimensions.SpatialX].

(** The tasks that [client.map] submits for the paths and the positions
    [idx], as the loader builds them. *)
Definition submitted {elem} (cast : Dtype -> elem -> elem)
    (paths : list string) (cls : @ReaderClass elem) (idx : list Z)
    : list (M LoadResult) :=
  client_map (_load_image cast) paths
    ((fun i => cls) <$> idx) ((fun i => i) <$> idx)
    ((fun compute => VInt compute) <$> idx).

(** Every array a reader of a recognised format hands out holds as many
    elements as its shape says. *)
Definition readers_well_formed {elem}
    (determine_reader : string -> Result (@ReaderClass elem)) : Prop :=
  forall p0 cls path chunk_by_dims reader a,
    determine_reader p0 = Ok cls ->
    construct cls path chunk_by_dims = Ok reader ->
    dask_data reader = Ok a ->
    well_formed a.

(** The metadata dict of a first result. *)
Definition meta_of {elem} (r0 : @LoadResult elem) : gmap string PyVal :=
  <["name" := from_option VStrList VNone (channel_names r0)]>
  (<["channel_axis" :=
       from_option VInt VNone
         (match channel_axis r0 with Some k => Some (k + 1) | None => None end)]>
  (<["is_pyramid" := VBool false]>
  (<["visible" := VBool false]> ∅))).

(** The events that record the construction of a reader. *)
Definition is_new_reader (ev : Event) : Prop :=
  match ev with
  | EvNewReader _ _ _ => True
  | _ => False
  end.

(** The message the loader prints. *)
Definition load_message (compute : bool) : string :=
  "Reader will load image in-memory: " +:+ py_str_bool compute.

(** ** A concrete image library

    Two reader classes over integer-valued pixels, enough to run the plugin:
    a TIFF reader whose files have two channels and a PNG reader whose files
    hold one plane and no channel dimension. *)
Module Fixture.

Definition cast (d : Dtype) (x : Z) : Z := x.

Definition pixels (path : string) (n : nat) : list Z :=
  (fun k => Z.of_nat (String.length path) * 100 + k) <$> range n.

Definition TiffReader : ReaderClass :=
  {| cls_name := "TiffReader";
     construct := fun path chunk_by_dims =>
       Ok {| dims := Ok "STCZYX";
             get_channel_names := Ok ["DAPI"; "GFP"];
             dask_data := Ok (mkArray Dask uint16 [1; 1; 2; 1; 2; 2]%nat
                                (pixels path 8)) |} |}.

Definition PngReader : ReaderClass :=
  {| cls_name := "PngReader";
     construct := fun path chunk_by_dims =>
       Ok {| dims := Ok "YX";
             get_channel_names := Raise (OtherError "AttributeError");
             dask_data := Ok (mkArray Dask uint8 [1; 1; 1; 1; 2; 3]%nat
                                (pixels path 6)) |} |}.

(** Format detection by file name: [.tiff] and [.png] files that exist are
    recognised, a missing file is an error of its own, anything else is
    unsupported. *)
Definition determine_reader (path : string) : Result ReaderClass :=
  if String.eqb path "a.tiff" then Ok TiffReader
  else if String.eqb path "bb.tiff" then Ok TiffReader
  else if String.eqb path "plane.png" then Ok PngReader
  else if String.eqb path "missing.tiff" then Raise FileNotFoundError
  else Raise UnsupportedFileFormatError.

(** A scheduler that hands results back last task first. *)
Definition completion_order (l : list (@LoadResult Z)) : list LoadResult :=
  reverse l.

Definition reader_function := reader_function cast determine_reader completion_order.
Definition get_reader := get_reader determine_reader.
Definition call := call cast determine_reader completion_order.

Definition layers_of (m : M (list (@LayerData Z))) : list LayerData :=
  match outcome m with
  | Ok layers => layers
  | Raise _ => []
  end.

(** What the plugin returns for the single plane, loaded in memory, and for
    the two TIFF files, loaded lazily. *)
Definition plane_layers : list LayerData :=
  Eval vm_compute in layers_of (reader_function (PathStr "plane.png") true false).

Definition tiff_layers : list LayerData :=
  Eval vm_compute in
    layers_of (reader_function (PathList ["a.tiff"; "bb.tiff"]) false true).

End Fixture.


(** ** A second image library

    Animations whose number of frames is the length of the file name, so that
    files of different shape exist, and one file that cannot be opened. *)
Module Frames.

Definition GifReader : ReaderClass :=
  {| cls_name := "GifReader";
     construct := fun path chunk_by_dims =>
       if String.eqb path "broken.gif" then Raise (OtherError "OSError")
       else
         Ok {| dims := Ok "TYX";
               get_channel_names := Raise (OtherError "AttributeError");
               dask_data :=
                 Ok (mkArray Dask uint8 [String.length path; 1; 2]%nat
                       (Fixture.pixels path (String.length path * 2))) |} |}.

Definition determine_reader (path : string) : Result ReaderClass :=
  if String.eqb path "notes.doc" then Raise UnsupportedFileFormatError
  else Ok GifReader.

Definition reader_function :=
  reader_function Fixture.cast determine_reader Fixture.completion_order.

(** What the per-path tasks return for a five-frame and a six-frame file. *)
Definition results : list (@LoadResult Z) :=
  Eval vm_compute in
    match outcome (wait_all (submitted Fixture.cast ["a.gif"; "bb.gif"]
                               GifReader (range 2))) with
    | Ok rs => rs
    | Raise _ => []
    end.

End Frames.

(** ** Reasoning about computations *)

Lemma outcome_bind_Ok {A B} (m : M A) (k : A -> M B) (b : B) :
  outcome (bind m k) = Ok b ->
  exists a, outcome m = Ok a /\ outcome (k a) = Ok b.
Proof.
  destruct m as [tr [a | e]]; simpl.
  - destruct (k a) as [tr' r] eqn:Hk. simpl. intros ->.
    exists a. by rewrite Hk.
  - discriminate.
Qed.

Lemma outcome_bind_Raise {A B} (m : M A) (k : A -> M B) (e : Exn) :
  outcome m = Raise e -> outcome (bind m k) = Raise e.
Proof. destruct m as [tr [a | e']]; simpl; congruence. Qed.

Lemma outcome_bind_step {A B} (m : M A) (k : A -> M B) (a : A) :
  outcome m = Ok a -> outcome (bind m k) = outcome (k a).
Proof.
  destruct m as [tr [a' | e]]; simpl; [intros [= ->] | discriminate].
  by destruct (k a).
Qed.

Lemma outcome_lift {A} (r : Result A) : outcome (lift r) = r.
Proof. done. Qed.

Lemma outcome_ret {A} (a : A) : outcome (ret a) = Ok a.
Proof. done. Qed.

Lemma trace_bind_Ok {A B} (m : M A) (k : A -> M B) (a : A) :
  outcome m = Ok a -> trace (bind m k) = trace m ++ trace (k a).
Proof.
  destruct m as [tr [a' | e]]; simpl; [intros [= ->] | discriminate].
  by destruct (k a).
Qed.

Lemma trace_bind_Raise {A B} (m : M A) (k : A -> M B) (e : Exn) :
  outcome m = Raise e -> trace (bind m k) = trace m.
Proof. destruct m as [tr [a | e']]; simpl; congruence. Qed.

Lemma outcome_cluster_and_client {A} (processes : bool) (body : M A) :
  outcome (cluster_and_client processes body) = outcome body.
Proof. by destruct body. Qed.

Lemma trace_cluster_and_client {A} (processes : bool) (body : M A) :
  trace (cluster_and_client processes body)
  = EvClusterEnter processes :: trace body ++ [EvClusterExit].
Proof. by destruct body. Qed.

(** A property of events holds along a computation when it holds along each
    of its steps. *)
Lemma Forall_trace_bind {A B} (P : Event -> Prop) (m : M A) (k : A -> M B) :
  Forall P (trace m) -> (forall a, Forall P (trace (k a))) ->
  Forall P (trace (bind m k)).
Proof.
  intros Hm Hk. destruct (outcome m) as [a | e] eqn:Hout.
  - rewrite (trace_bind_Ok _ _ _ Hout). apply Forall_app. split; [done | apply Hk].
  - by rewrite (trace_bind_Raise _ _ _ Hout).
Qed.

Lemma Forall_trace_cluster_and_client {A} (P : Event -> Prop)
    (processes : bool) (body : M A) :
  P (EvClusterEnter processes) -> P EvClusterExit -> Forall P (trace body) ->
  Forall P (trace (cluster_and_client processes body)).
Proof.
  intros Henter Hexit Hbody. rewrite trace_cluster_and_client.
  constructor; [done |]. apply Forall_app. split; [done |].
  by constructor.
Qed.

(** Successful binds are taken apart from the outside in. *)
Ltac invert_run H :=
  repeat match type of H with
  | outcome (bind _ _) = Ok _ =>
      let a := fresh "v" in
      let Ha := fresh "Hv" in
      apply outcome_bind_Ok in H as (a & Ha & H)
  | outcome (cluster_and_client _ _) = _ =>
      rewrite outcome_cluster_and_client in H
  | outcome (lift _) = _ => rewrite outcome_lift in H
  | outcome (ret _) = Ok _ => rewrite outcome_ret in H; injection H as H
  end.

Ltac invert_runs :=
  repeat match goal with
  | H : outcome (bind _ _) = Ok _ |- _ =>
      apply outcome_bind_Ok in H as (? & ? & ?)
  | H : outcome (cluster_and_client _ _) = _ |- _ =>
      rewrite outcome_cluster_and_client in H
  | H : outcome (lift _) = _ |- _ => rewrite outcome_lift in H
  | H : outcome (ret _) = Ok _ |- _ => rewrite outcome_ret in H; injection H as H
  | H : outcome (emit _) = Ok _ |- _ => clear H
  end.

(** ** Strings *)

Lemma str_index_in (c : ascii) (s : string) (k : Z) :
  str_index c s = Ok k -> str_in c s = true.
Proof.
  revert k. induction s as [| a s IH]; simpl; intros k; [discriminate |].
  destruct (Ascii.eqb c a); [done |].
  destruct (str_index c s) as [k' | e]; [eauto | discriminate].
Qed.

Lemma str_in_index (c : ascii) (s : string) :
  str_in c s = true -> exists k, str_index c s = Ok k.
Proof.
  induction s as [| a s IH]; simpl; [discriminate |].
  destruct (Ascii.eqb c a); [eauto |].
  intros [k ->]%IH. eauto.
Qed.

Lemma str_not_in_index (c : ascii) (s : string) :
  str_in c s = false -> str_index c s = Raise ValueError.
Proof.
  induction s as [| a s IH]; simpl; [done |].
  destruct (Ascii.eqb c a); [discriminate |].
  by intros ->%IH.
Qed.

Lemma str_index_bounds (c : ascii) (s : string) (k : Z) :
  str_index c s = Ok k -> 0 <= k < Z.of_nat (String.length s).
Proof.
  revert k. induction s as [| a s IH]; simpl; intros k; [discriminate |].
  destruct (Ascii.eqb c a); [intros [= <-]; lia |].
  destruct (str_index c s) as [k' | e]; [| discriminate].
  intros [= <-]. specialize (IH _ eq_refl). lia.
Qed.

(** ** Sorting *)

Section Sorting.
Context {A : Type} (key : A -> Z).

Lemma insert_by_comm (x y : A) (l : list A) :
  key x ≠ key y ->
  insert_by key x (insert_by key y l) = insert_by key y (insert_by key x l).
Proof.
  intros Hxy. induction l as [| z l IH]; simpl.
  - destruct (Z.leb_spec (key x) (key y)), (Z.leb_spec (key y) (key x));
      first [done | lia].
  - destruct (Z.leb_spec (key y) (key z)), (Z.leb_spec (key x) (key z)); simpl;
      repeat (case_match; try rewrite ->Z.leb_le in *;
              try rewrite ->Z.leb_gt in *); first [done | lia | by rewrite IH].
Qed.

Lemma insert_by_Permutation (x : A) (l : list A) :
  insert_by key x l ≡ₚ x :: l.
Proof.
  induction l as [| y l IH]; simpl; [done |].
  case_match; [done |]. rewrite IH. apply perm_swap.
Qed.

Lemma sorted_Permutation (l : list A) : sorted key l ≡ₚ l.
Proof.
  induction l as [| x l IH]; simpl; [done |].
  by rewrite insert_by_Permutation, IH.
Qed.

(** With pairwise distinct keys the result of the sort does not depend on
    the order of its input. *)
Lemma sorted_order_irrelevant (l1 l2 : list A) :
  l1 ≡ₚ l2 -> NoDup (key <$> l1) -> sorted key l1 = sorted key l2.
Proof.
  induction 1 as [| x l1 l2 _ IH | x y l | l1 l2 l3 H12 IH12 _ IH23]; intros Hnd.
  - done.
  - simpl. f_equal. apply IH. by inversion Hnd.
  - simpl. apply insert_by_comm.
    rewrite !fmap_cons in Hnd. apply NoDup_cons in Hnd as [Hy _].
    rewrite not_elem_of_cons in Hy. by destruct Hy.
  - rewrite IH12 by done. apply IH23. by rewrite <-H12.
Qed.

(** A list whose keys count up from [s] is already sorted. *)
Lemma sorted_counting (l : list A) (s : nat) :
  key <$> l = Z.of_nat <$> seq s (length l) -> sorted key l = l.
Proof.
  revert s. induction l as [| x l IH]; intros s Hk; [done |].
  simpl in *. injection Hk as Hx Hl.
  rewrite (IH (S s)) by done.
  destruct l as [| y l]; [done |]. simpl in *.
  injection Hl as Hy Hl.
  destruct (Z.leb_spec (key x) (key y)); [done | lia].
Qed.

Lemma sorted_gathered (gathered l : list A) (s : nat) :
  gathered ≡ₚ l ->
  key <$> l = Z.of_nat <$> seq s (length l) ->
  sorted key gathered = l.
Proof.
  intros Hp Hk. rewrite <-(sorted_counting l s) by done.
  symmetry. apply sorted_order_irrelevant; [done |].
  rewrite Hk. apply NoDup_fmap_2; [apply _ | apply NoDup_seq].
Qed.
End Sorting.

(** ** Arrays *)

Section Arrays.
Context {elem : Type} (cast : Dtype -> elem -> elem).
Implicit Types (a st : @Array elem) (arrays : list (@Array elem)).

Lemma size_of_squeezed (s : list nat) :
  size_of (filter (fun n => n ≠ 1%nat) s) = size_of s.
Proof.
  induction s as [| n s IH]; [done |].
  rewrite filter_cons. case_decide as Hn; simpl.
  - by rewrite IH.
  - subst n. rewrite IH. simpl. lia.
Qed.

Lemma squeezed_no_unit_axis a : 1%nat ∉ shape (squeeze a).
Proof. simpl. rewrite list_elem_of_filter. by intros [Hne _]. Qed.

Lemma well_formed_squeeze a : well_formed a -> well_formed (squeeze a).
Proof. unfold well_formed. simpl. by rewrite size_of_squeezed. Qed.

Lemma well_formed_astype d a : well_formed a -> well_formed (astype cast d a).
Proof. unfold well_formed. simpl. by rewrite length_fmap. Qed.

Lemma promote_all_float16 (ds : list Dtype) :
  Forall (fun d => d = float16) ds -> foldl promote_types float16 ds = float16.
Proof. induction 1 as [| d ds -> _ IH]; [done | apply IH]. Qed.

(** What a successful stack looks like. *)
Lemma stack_Ok arrays st :
  stack arrays = Ok st ->
  exists a rest,
    arrays = a :: rest /\
    Forall (fun b => shape b = shape a) arrays /\
    st = {| backing := Dask;
            dtype := foldl promote_types (dtype a) (dtype <$> rest);
            shape := length arrays :: shape a;
            flat := concat (flat <$> arrays) |}.
Proof.
  destruct arrays as [| a rest]; simpl; [discriminate |].
  destruct (forallb _ rest) eqn:Hall; [| discriminate].
  intros [= <-]. exists a, rest. split_and!; [done | | done].
  constructor; [done |].
  apply Forall_forall. intros b Hb%list_elem_of_In.
  rewrite forallb_forall in Hall. apply Hall in Hb.
  by apply bool_decide_eq_true in Hb.
Qed.

(** The [i]-th block of a concatenation of blocks of length [n]. *)
Lemma block_of_concat (blocks : list (list elem)) (n i : nat) (b : list elem) :
  Forall (fun x => length x = n) blocks ->
  blocks !! i = Some b ->
  take n (drop (i * n) (concat blocks)) = b.
Proof.
  intros Hall. revert i. induction Hall as [| x blocks Hx _ IH]; intros i Hi.
  - done.
  - rewrite concat_cons. destruct i as [| i].
    + injection Hi as ->. rewrite Nat.mul_0_l, drop_0.
      by rewrite take_app_length'.
    + replace (S i * n)%nat with (n + i * n)%nat by lia.
      rewrite <-drop_drop, drop_app_length' by done.
      by apply IH.
Qed.

(** Position [i] of a stack holds the [i]-th array that was stacked. *)
Lemma item_stack arrays st (i : nat) a :
  Forall well_formed arrays ->
  stack arrays = Ok st ->
  arrays !! i = Some a ->
  item i st = Ok {| backing := Dask; dtype := dtype st;
                    shape := shape a; flat := flat a |}.
Proof.
  intros Hwf (a0 & rest & -> & Hshape & ->)%stack_Ok Hi.
  unfold item. cbn [shape backing dtype flat].
  assert (i < length (a0 :: rest))%nat as Hlt by by eapply lookup_lt_Some.
  apply Nat.ltb_lt in Hlt as ->.
  assert (shape a = shape a0) as Ha.
  { rewrite Forall_forall in Hshape. apply Hshape.
    by eapply list_elem_of_lookup_2. }
  rewrite Ha. do 2 f_equal.
  apply block_of_concat; [| by rewrite list_lookup_fmap, Hi].
  apply Forall_fmap. eapply Forall_impl.
  { apply Forall_and. split; [exact Hwf | exact Hshape]. }
  intros b [Hb Hs]. simpl. unfold well_formed in Hb. by rewrite Hb, Hs.
Qed.

(** Indexing reads the shape and the elements only. *)
Lemma item_compute_array (i : nat) a :
  item i (compute_array a)
  = match item i a with
    | Ok s => Ok (compute_array s)
    | Raise e => Raise e
    end.
Proof.
  unfold item. simpl. destruct (shape a) as [| n s]; [done |].
  by destruct (i <? n)%nat.
Qed.


Lemma stack_mismatch arrays a b :
  a ∈ arrays -> b ∈ arrays -> shape a ≠ shape b ->
  stack arrays = Raise ValueError.
Proof.
  intros Ha Hb Hne. destruct (stack arrays) as [st | e] eqn:Hst.
  - apply stack_Ok in Hst as (a0 & rest & -> & Hall & _).
    rewrite Forall_forall in Hall. exfalso. apply Hne.
    by rewrite (Hall _ Ha), (Hall _ Hb).
  - destruct arrays as [| a0 rest]; simpl in Hst; [congruence |].
    destruct (forallb _ rest); congruence.
Qed.


End Arrays.

(** ** The per-path load and the orchestration *)

Section Properties.
Context {elem : Type} (cast : Dtype -> elem -> elem).
Context (determine_reader : string -> Result (@ReaderClass elem)).
Context (completion_order : list (@LoadResult elem) -> list (@LoadResult elem)).

Implicit Types (cls : @ReaderClass elem) (lr : @LoadResult elem).
Implicit Types (path : string) (paths : list string) (idx : list Z).

(** A task logs the construction of its reader and nothing else. *)
Lemma load_image_trace path cls (i : Z) (c : PyVal) :
  trace (_load_image cast path cls i c)
  = [EvNewReader (cls_name cls) path (chunk_by_dims_for c)].
Proof.
  unfold _load_image, chunk_by_dims_for, new_reader.
  destruct (truthy c); simpl;
    (destruct (construct cls path _) as [[[d | ?] [n | ?] [a | ?]] | ?]; simpl;
     try done; destruct (str_in _ d); simpl; try done;
     destruct (str_index _ d); simpl; done).
Qed.

(** What a successful task did. *)
Lemma load_image_Ok path cls (i : Z) (c : PyVal) lr :
  outcome (_load_image cast path cls i c) = Ok lr ->
  exists reader d a,
    construct cls path (chunk_by_dims_for c) = Ok reader /\
    dims reader = Ok d /\
    dask_data reader = Ok a /\
    data lr = squeeze (astype cast float16 a) /\
    index lr = i /\
    match str_index Dimensions.Channel d with
    | Ok k =>
        channel_axis lr = Some k /\
        exists names,
          get_channel_names reader = Ok names /\ channel_names lr = Some names
    | Raise _ => channel_axis lr = None /\ channel_names lr = None
    end.
Proof.
  unfold _load_image, chunk_by_dims_for, new_reader. intros H.
  destruct (truthy c).
  all: destruct (construct cls path _) as [[[d | ?] nm da] | ?] eqn:Hc;
    simpl in H; try discriminate.
  all: destruct (str_in Dimensions.Channel d) eqn:Hin;
    [ apply str_in_index in Hin as [k Hk]; rewrite Hk in H; simpl in H;
      destruct nm as [names | ?]; simpl in H; [| discriminate]
    | apply str_not_in_index in Hin as Hk; simpl in H ].
  all: destruct da as [a | ?]; simpl in H; [| discriminate].
  all: injection H as <-; eexists _, d, a; rewrite Hk; simpl;
    split_and!; eauto.
Qed.

(** The task at position [i] loads the path at position [i] and is handed
    the position, twice: as its index and as its flag. *)
Lemma submitted_lookup paths cls idx (n : nat) path (i : Z) :
  paths !! n = Some path -> idx !! n = Some i ->
  submitted cast paths cls idx !! n = Some (_load_image cast path cls i (VInt i)).
Proof.
  unfold submitted. revert idx n.
  induction paths as [| p paths IH]; intros [| j idx] [| n]; try done; simpl.
  - by intros [= ->] [= ->].
  - apply IH.
Qed.

Lemma submitted_Ok paths cls idx (rs : list LoadResult) :
  length idx = length paths ->
  outcome (wait_all (submitted cast paths cls idx)) = Ok rs ->
  Forall2 (fun pi lr =>
             outcome (_load_image cast pi.1 cls pi.2 (VInt pi.2)) = Ok lr)
          (zip paths idx) rs.
Proof.
  unfold submitted. revert idx rs.
  induction paths as [| p paths IH]; intros [| i idx] rs Hlen H; try done.
  - injection H as <-. constructor.
  - simpl in H. invert_run H. subst rs. simpl. constructor; [done |].
    apply IH; [simpl in Hlen; lia | done].
Qed.

Lemma submitted_index paths cls idx (rs : list LoadResult) :
  length idx = length paths ->
  outcome (wait_all (submitted cast paths cls idx)) = Ok rs ->
  index <$> rs = idx.
Proof.
  intros Hlen H. pose proof (submitted_Ok _ _ _ _ Hlen H) as Hall.
  clear H. revert idx rs Hlen Hall.
  induction paths as [| p paths IH]; intros [| i idx] rs Hlen Hall; try done;
    simpl in Hall.
  - by inversion Hall.
  - inversion Hall as [| ? lr ? rs' Hlr Hrest]; subst. simpl in *.
    apply load_image_Ok in Hlr as (? & ? & ? & _ & _ & _ & _ & Hi & _).
    rewrite Hi. f_equal. apply IH; [lia | done].
Qed.

Lemma length_range (n : nat) : length (range n) = n.
Proof. unfold range. by rewrite length_fmap, length_seq. Qed.

Lemma lookup_range (n i : nat) :
  (i < n)%nat -> range n !! i = Some (Z.of_nat i).
Proof.
  intros Hi. unfold range. by rewrite list_lookup_fmap, lookup_seq_lt.
Qed.

(** The steps of a successful load. *)
Lemma reader_function_Ok (path : PathLike) (compute processes : bool)
    (res : list LayerData) :
  outcome (reader_function cast determine_reader completion_order
             path compute processes) = Ok res ->
  exists p0 cls rs st r0,
    getitem0 (standardize path) = Ok p0 /\
    determine_reader p0 = Ok cls /\
    outcome (wait_all (submitted cast (standardize path) cls
                         (range (length (standardize path))))) = Ok rs /\
    stack (data <$> sorted index (completion_order rs)) = Ok st /\
    getitem0 (sorted index (completion_order rs)) = Ok r0 /\
    res = [(if compute then compute_array st else st, meta_of r0)].
Proof.
  unfold reader_function, client_gather. intros H.
  invert_runs. subst.
  eexists _, _, _, _, _. split_and!; try done.
Qed.

(** The result at position [i] is the load of the path at position [i]. *)
Lemma tasks_lookup paths cls (rs : list LoadResult) (i : nat) path :
  Forall2 (fun pi lr =>
             outcome (_load_image cast pi.1 cls pi.2 (VInt pi.2)) = Ok lr)
          (zip paths (range (length paths))) rs ->
  paths !! i = Some path ->
  exists lr,
    rs !! i = Some lr /\
    outcome (_load_image cast path cls (Z.of_nat i) (VInt (Z.of_nat i))) = Ok lr.
Proof.
  intros Hall Hi.
  assert (zip paths (range (length paths)) !! i = Some (path, Z.of_nat i)) as Hz.
  { rewrite lookup_zip_with, Hi. simpl.
    rewrite lookup_range; [done |]. by eapply lookup_lt_Some. }
  destruct (Forall2_lookup_l _ _ _ _ _ Hall Hz) as (lr & Hlr & Hrun).
  by exists lr.
Qed.

Lemma tasks_length paths cls (rs : list LoadResult) :
  Forall2 (fun pi lr =>
             outcome (_load_image cast pi.1 cls pi.2 (VInt pi.2)) = Ok lr)
          (zip paths (range (length paths))) rs ->
  length rs = length paths.
Proof.
  intros <-%Forall2_length. rewrite length_zip_with, length_range. lia.
Qed.

(** Every per-path array is half precision and has no axis of length one. *)
Lemma tasks_data paths cls idx (rs : list LoadResult) :
  Forall2 (fun pi lr =>
             outcome (_load_image cast pi.1 cls pi.2 (VInt pi.2)) = Ok lr)
          (zip paths idx) rs ->
  Forall (fun a => dtype a = float16 /\ 1%nat ∉ shape a) (data <$> rs).
Proof.
  intros Hall. apply Forall_fmap.
  induction Hall as [| pi lr ps rs Hlr _ IH]; constructor; [| done].
  apply load_image_Ok in Hlr as (? & ? & a & _ & _ & _ & Hdata & _).
  unfold compose. rewrite Hdata.
  split; [done | apply squeezed_no_unit_axis].
Qed.

Lemma tasks_well_formed paths cls idx (rs : list LoadResult) (p0 : string) :
  readers_well_formed determine_reader ->
  determine_reader p0 = Ok cls ->
  Forall2 (fun pi lr =>
             outcome (_load_image cast pi.1 cls pi.2 (VInt pi.2)) = Ok lr)
          (zip paths idx) rs ->
  Forall well_formed (data <$> rs).
Proof.
  intros Hwf Hcls Hall. apply Forall_fmap.
  induction Hall as [| pi lr ps rs Hlr _ IH]; constructor; [| done].
  apply load_image_Ok in Hlr as (reader & ? & a & Hnew & _ & Ha & Hdata & _).
  unfold compose. rewrite Hdata.
  apply well_formed_squeeze, well_formed_astype. eauto.
Qed.

(** The tasks log reader constructions only. *)
Lemma Forall_trace_submitted (P : Event -> Prop) paths cls idx :
  (forall c p chunk_by_dims, P (EvNewReader c p chunk_by_dims)) ->
  Forall P (trace (wait_all (submitted cast paths cls idx))).
Proof.
  intros HP. unfold submitted. revert idx.
  induction paths as [| p paths IH]; intros [| i idx]; simpl;
    try by constructor.
  apply Forall_trace_bind.
  - rewrite load_image_trace. constructor; [apply HP | constructor].
  - intros lr. apply Forall_trace_bind; [apply IH |].
    intros rs. constructor.
Qed.

(** The only cluster a load sets up is the one its [processes] flag asks
    for. *)
Lemma reader_function_cluster (path : PathLike) (compute processes : bool) :
  Forall (fun ev => forall b, ev = EvClusterEnter b -> b = processes)
    (trace (reader_function cast determine_reader completion_order
              path compute processes)).
Proof.
  unfold reader_function, client_gather.
  apply Forall_trace_bind; [by repeat constructor |]. intros _.
  apply Forall_trace_bind; [constructor |]. intros p0.
  apply Forall_trace_bind; [constructor |]. intros cls.
  apply Forall_trace_bind; [| intros layer; constructor].
  apply Forall_trace_cluster_and_client; [by intros b [= ->] | done |].
  apply Forall_trace_bind.
  - apply Forall_trace_bind; [| intros rs; constructor].
    by apply (Forall_trace_submitted _ (standardize path) cls).
  - intros results.
    apply Forall_trace_bind; [constructor |]. intros stacked.
    apply Forall_trace_bind; [constructor |]. intros r0. constructor.
Qed.

(** The probe, once the first path is known. *)
Lemma get_reader_run (path : PathLike) (p0 : string) (compute : bool)
    (processes : option bool) :
  getitem0 (standardize path) = Ok p0 ->
  get_reader determine_reader path compute processes
  = match determine_reader p0 with
    | Ok _ =>
        ([], Ok (Some (partial_reader_function compute (default true processes))))
    | Raise UnsupportedFileFormatError => ([], Ok None)
    | Raise e => ([], Raise e)
    end.
Proof.
  intros Hp0. unfold get_reader. rewrite Hp0. simpl.
  by destruct (determine_reader p0) as [cls | []].
Qed.

(** C3, amended: when format detection on the first path raises
    [UnsupportedFileFormatError], the probe returns [None] and raises
    nothing; any other exception that format detection raises reaches the
    caller. *)
Theorem get_reader_catches_unsupported_only (path : PathLike) (p0 : string)
    (compute : bool) (processes : option bool) (e : Exn) :
  getitem0 (standardize path) = Ok p0 ->
  determine_reader p0 = Raise e ->
  outcome (get_reader determine_reader path compute processes)
  = match e with
    | UnsupportedFileFormatError => Ok None
    | _ => Raise e
    end.
Proof.
  intros Hp0 He. rewrite (get_reader_run _ _ _ _ Hp0), He. by destruct e.
Qed.

(** C6: for a path no reader recognises the probe returns [None]; for a path
    some reader recognises it returns the loader with the caller's two flags
    fixed, which loads as [reader_function] does under these flags. *)
Theorem get_reader_probe (path : PathLike) (p0 : string)
    (compute processes : bool) :
  getitem0 (standardize path) = Ok p0 ->
  (determine_reader p0 = Raise UnsupportedFileFormatError ->
   outcome (get_reader determine_reader path compute (Some processes))
   = Ok None) /\
  (forall cls, determine_reader p0 = Ok cls ->
   exists f,
     outcome (get_reader determine_reader path compute (Some processes))
     = Ok (Some f) /\
     f = partial_reader_function compute processes /\
     forall q : PathLike,
       call cast determine_reader completion_order f q
       = reader_function cast determine_reader completion_order
           q compute processes).
Proof.
  intros Hp0. rewrite (get_reader_run _ _ _ _ Hp0). split.
  - by intros ->.
  - intros cls ->. by eexists.
Qed.

(** C9: a probe that leaves [processes] out behaves as one that passes
    [True]: the loader it returns has multiprocessing on, and every cluster
    that loader sets up is process-based. *)
Theorem get_reader_default_processes (path : PathLike) (compute : bool)
    (f : ReaderFunction) :
  outcome (get_reader determine_reader path compute None) = Ok (Some f) ->
  get_reader determine_reader path compute None
  = get_reader determine_reader path compute (Some true) /\
  f = partial_reader_function compute true /\
  forall (q : PathLike) (b : bool),
    EvClusterEnter b ∈ trace (call cast determine_reader completion_order f q) ->
    b = true.
Proof.
  intros H. split; [done |].
  assert (f = partial_reader_function compute true) as ->.
  { destruct (getitem0 (standardize path)) as [p0 | e] eqn:Hp0.
    - rewrite (get_reader_run _ _ _ _ Hp0) in H.
      destruct (determine_reader p0) as [cls | []]; simpl in H; congruence.
    - unfold get_reader in H. rewrite Hp0 in H. by destruct e. }
  split; [done |]. intros q b Hin. simpl in Hin.
  pose proof (reader_function_cluster q compute true) as Hall.
  rewrite Forall_forall in Hall. by apply (Hall _ Hin).
Qed.

(** C10: on an empty list of paths neither the probe nor the loader returns:
    both raise [IndexError] at [paths[0]], the loader after its print and
    before any cluster is set up. *)
Theorem empty_paths_raise_IndexError (compute processes : bool)
    (processes' : option bool) :
  get_reader determine_reader (PathList []) compute processes'
  = ([], Raise IndexError) /\
  reader_function cast determine_reader completion_order
    (PathList []) compute processes
  = ([EvPrint ("Reader will load image in-memory: " +:+ py_str_bool compute)],
     Raise IndexError).
Proof. done. Qed.

(** C7: a load with [compute=True] returns the stack computed, an in-memory
    array; a load with [compute=False] returns it as the deferred array that
    [da.stack] built, on which nothing has been forced. *)
Theorem materialize_forces_compute (path : PathLike)
    (compute processes : bool) (res : list LayerData) :
  outcome (reader_function cast determine_reader completion_order
             path compute processes) = Ok res ->
  exists stacked meta,
    res = [(stacked, meta)] /\
    backing stacked = if compute then Numpy else Dask.
Proof.
  intros (p0 & cls & rs & st & r0 & _ & _ & _ & Hst & _ & ->)
    %reader_function_Ok.
  eexists _, _. split; [done |].
  apply stack_Ok in Hst as (a & rest & _ & _ & ->).
  by destruct compute.
Qed.

(** C8: a successful load returns a list of exactly one pair of an array and
    a metadata dict; the dict has the keys [name], [channel_axis],
    [is_pyramid] and [visible] and no other, [channel_axis] is an integer
    or [None], and both flags are [False]. *)
Theorem single_layer_fixed_keys (path : PathLike)
    (compute processes : bool) (res : list LayerData) :
  outcome (reader_function cast determine_reader completion_order
             path compute processes) = Ok res ->
  exists stacked (meta : gmap string PyVal),
    res = [(stacked, meta)] /\
    dom meta = {["name"; "channel_axis"; "is_pyramid"; "visible"]} /\
    (meta !! "channel_axis" = Some VNone \/
     exists k, meta !! "channel_axis" = Some (VInt k)) /\
    meta !! "is_pyramid" = Some (VBool false) /\
    meta !! "visible" = Some (VBool false).
Proof.
  intros (p0 & cls & rs & st & r0 & _ & _ & _ & _ & _ & ->)
    %reader_function_Ok.
  eexists _, _. split; [done |]. unfold meta_of. split_and!.
  - rewrite !dom_insert_L, dom_empty_L. set_solver.
  - rewrite lookup_insert_ne, lookup_insert_eq by done.
    destruct (channel_axis r0); simpl; eauto.
  - by rewrite !lookup_insert_ne, lookup_insert_eq by done.
  - by rewrite !lookup_insert_ne, lookup_insert_eq by done.
Qed.

Section Ordered.
(** Whatever the scheduler does, it hands back the results it was given. *)
Hypothesis completion_order_perm : forall l, completion_order l ≡ₚ l.

(** Sorting on the carried index undoes the scheduler. *)
Lemma sorted_completion_order paths cls (rs : list LoadResult) :
  outcome (wait_all (submitted cast paths cls (range (length paths)))) = Ok rs ->
  sorted index (completion_order rs) = rs.
Proof.
  intros H.
  assert (index <$> rs = range (length paths)) as Hidx.
  { eapply submitted_index; [| done]. apply length_range. }
  apply (sorted_gathered _ _ _ 0%nat); [done |].
  rewrite Hidx. unfold range. do 2 f_equal.
  by rewrite <-(length_fmap index rs), Hidx, length_range.
Qed.

(** The steps of a successful load, with the results back in the
    caller's order. *)
Lemma reader_function_ordered (path : PathLike) (compute processes : bool)
    (res : list LayerData) :
  outcome (reader_function cast determine_reader completion_order
             path compute processes) = Ok res ->
  exists p0 cls rs st r0,
    getitem0 (standardize path) = Ok p0 /\
    determine_reader p0 = Ok cls /\
    Forall2 (fun pi lr =>
               outcome (_load_image cast pi.1 cls pi.2 (VInt pi.2)) = Ok lr)
            (zip (standardize path) (range (length (standardize path)))) rs /\
    stack (data <$> rs) = Ok st /\
    getitem0 rs = Ok r0 /\
    res = [(if compute then compute_array st else st, meta_of r0)].
Proof.
  intros (p0 & cls & rs & st & r0 & Hp0 & Hcls & Hrs & Hst & Hr0 & ->)
    %reader_function_Ok.
  rewrite (sorted_completion_order _ _ _ Hrs) in Hst, Hr0.
  exists p0, cls, rs, st, r0. split_and!; try done.
  apply submitted_Ok; [apply length_range | done].
Qed.

(** C2: for a list of N paths the stack has N positions along its leading
    axis, and position [i] holds what was loaded from the path at
    position [i] of the caller's list (that reader's array, cast and
    squeezed), whatever order the scheduler hands the results back in. *)
Theorem stack_follows_caller_order (path : PathLike)
    (compute processes : bool) (res : list LayerData) :
  readers_well_formed determine_reader ->
  outcome (reader_function cast determine_reader completion_order
             path compute processes) = Ok res ->
  exists p0 cls stacked meta,
    getitem0 (standardize path) = Ok p0 /\
    determine_reader p0 = Ok cls /\
    res = [(stacked, meta)] /\
    head (shape stacked) = Some (length (standardize path)) /\
    forall (i : nat) (p : string),
      standardize path !! i = Some p ->
      exists chunk_by_dims reader a slice,
        construct cls p chunk_by_dims = Ok reader /\
        dask_data reader = Ok a /\
        item i stacked = Ok slice /\
        dtype slice = float16 /\
        shape slice = shape (squeeze (astype cast float16 a)) /\
        flat slice = flat (squeeze (astype cast float16 a)).
Proof.
  intros Hwf (p0 & cls & rs & st & r0 & Hp0 & Hcls & Hrs & Hst & Hr0 & ->)
    %reader_function_ordered.
  exists p0, cls. eexists _, _. split_and!; try done.
  - pose proof Hst as (a & rest & Heq & _ & ->)%stack_Ok.
    rewrite length_fmap, (tasks_length _ _ _ Hrs).
    by destruct compute.
  - intros i p Hi.
    destruct (tasks_lookup _ _ _ _ _ Hrs Hi) as (lr & Hlr & Hrun).
    apply load_image_Ok in Hrun
      as (reader & d & a & Hnew & _ & Ha & Hdata & _).
    assert (item i st = Ok {| backing := Dask; dtype := dtype st;
                              shape := shape (data lr);
                              flat := flat (data lr) |}) as Hitem.
    { eapply item_stack; [| done | by rewrite list_lookup_fmap, Hlr].
      by eapply tasks_well_formed. }
    assert (dtype st = float16) as Hdt.
    { pose proof (tasks_data _ _ _ _ Hrs) as Hall.
      apply stack_Ok in Hst as (a0 & rest & Heq & _ & ->). simpl.
      rewrite Heq in Hall. apply Forall_cons in Hall as [[-> _] Hall].
      apply promote_all_float16, Forall_fmap.
      eapply Forall_impl; [exact Hall |]. by intros ? [? _]. }
    set (block := {| backing := Dask; dtype := dtype st;
                     shape := shape (data lr); flat := flat (data lr) |})
      in Hitem.
    exists (chunk_by_dims_for (VInt (Z.of_nat i))), reader, a,
      (if compute then compute_array block else block).
    split_and!; [done | done | | | |].
    + destruct compute; [| exact Hitem].
      by rewrite item_compute_array, Hitem.
    + by destruct compute.
    + destruct compute; simpl; by rewrite Hdata.
    + destruct compute; simpl; by rewrite Hdata.
Qed.

(** C4, amended: the returned array is half precision, its leading axis has
    one position per path, and no axis after the leading one has length
    one. *)
Theorem stacked_float16_squeezed (path : PathLike)
    (compute processes : bool) (res : list LayerData) :
  outcome (reader_function cast determine_reader completion_order
             path compute processes) = Ok res ->
  exists stacked meta (s : list nat),
    res = [(stacked, meta)] /\
    dtype stacked = float16 /\
    shape stacked = length (standardize path) :: s /\
    1%nat ∉ s.
Proof.
  intros (p0 & cls & rs & st & r0 & Hp0 & Hcls & Hrs & Hst & Hr0 & ->)
    %reader_function_ordered.
  pose proof (tasks_data _ _ _ _ Hrs) as Hall.
  pose proof (tasks_length _ _ _ Hrs) as Hlen.
  apply stack_Ok in Hst as (a0 & rest & Heq & _ & ->).
  rewrite Heq in Hall. apply Forall_cons in Hall as [[Hdt Hsh] Hall].
  eexists _, _, (shape a0). split_and!; [done | | | done].
  - assert (foldl promote_types (dtype a0) (dtype <$> rest) = float16) as Hp.
    { rewrite Hdt. apply promote_all_float16, Forall_fmap.
      eapply Forall_impl; [exact Hall |]. by intros ? [? _]. }
    by destruct compute.
  - rewrite length_fmap, Hlen. by destruct compute.
Qed.

(** C5: the metadata comes from the reader of the first path of the
    caller's list alone: when its dimension ordering has the channel
    dimension at position [k], [channel_axis] is [k + 1] and [name] is
    that reader's list of channel names; when its dimension ordering has
    no channel dimension, both are [None]. *)
Theorem metadata_from_first_path (path : PathLike)
    (compute processes : bool) (res : list LayerData) :
  outcome (reader_function cast determine_reader completion_order
             path compute processes) = Ok res ->
  exists p0 cls chunk_by_dims reader d stacked (meta : gmap string PyVal),
    getitem0 (standardize path) = Ok p0 /\
    determine_reader p0 = Ok cls /\
    construct cls p0 chunk_by_dims = Ok reader /\
    dims reader = Ok d /\
    res = [(stacked, meta)] /\
    (forall k, str_index Dimensions.Channel d = Ok k ->
       meta !! "channel_axis" = Some (VInt (k + 1)) /\
       exists names,
         get_channel_names reader = Ok names /\
         meta !! "name" = Some (VStrList names)) /\
    (str_in Dimensions.Channel d = false ->
       meta !! "channel_axis" = Some VNone /\
       meta !! "name" = Some VNone).
Proof.
  intros (p0 & cls & rs & st & r0 & Hp0 & Hcls & Hrs & Hst & Hr0 & ->)
    %reader_function_ordered.
  assert (standardize path !! 0%nat = Some p0) as H0.
  { destruct (standardize path); simpl in Hp0; [done |].
    by injection Hp0 as ->. }
  destruct (tasks_lookup _ _ _ _ _ Hrs H0) as (lr & Hlr & Hrun).
  assert (lr = r0) as ->.
  { destruct rs; [done |]. simpl in *. congruence. }
  apply load_image_Ok in Hrun
    as (reader & d & a & Hnew & Hd & _ & _ & _ & Hch).
  exists p0, cls. eexists _, reader, d, _, _.
  split_and!; try done; unfold meta_of.
  - intros k Hk. rewrite Hk in Hch. destruct Hch as (-> & names & Hn & ->).
    rewrite lookup_insert_ne, !lookup_insert_eq by done. eauto.
  - intros Hk%str_not_in_index. rewrite Hk in Hch. destruct Hch as (-> & ->).
    by rewrite lookup_insert_ne, !lookup_insert_eq by done.
Qed.
End Ordered.

(** *** How a load runs *)

Lemma outcome_bind {A B} (m : M A) (k : A -> M B) :
  outcome (bind m k)
  = match outcome m with
    | Ok a => outcome (k a)
    | Raise e => Raise e
    end.
Proof.
  destruct (outcome m) as [a | e] eqn:Hm.
  - by apply outcome_bind_step.
  - by apply outcome_bind_Raise.
Qed.

Lemma trace_bind {A B} (m : M A) (k : A -> M B) :
  trace (bind m k)
  = trace m ++ match outcome m with
               | Ok a => trace (k a)
               | Raise _ => []
               end.
Proof.
  destruct (outcome m) as [a | e] eqn:Hm.
  - by apply trace_bind_Ok.
  - rewrite app_nil_r. by eapply trace_bind_Raise.
Qed.

(** All tasks are done exactly when each of them is. *)
Lemma wait_all_Ok {R} (ms : list (M R)) (rs : list R) :
  outcome (wait_all ms) = Ok rs <->
  Forall2 (fun m r => outcome m = Ok r) ms rs.
Proof.
  revert rs. induction ms as [| m ms IH]; intros rs; simpl.
  - split; [intros [= <-]; constructor | by inversion 1].
  - rewrite outcome_bind. split.
    + destruct (outcome m) as [r | e] eqn:Hm; [| done].
      rewrite outcome_bind.
      destruct (outcome (wait_all ms)) as [rs' | e] eqn:Hms; [| done].
      intros [= <-]. constructor; [done | by apply IH].
    + inversion 1 as [| ? r ? rs' Hm Hms]; subst.
      rewrite Hm, outcome_bind. apply IH in Hms. by rewrite Hms.
Qed.

Lemma wait_all_Raise {R} (ms : list (M R)) (i : nat) (m : M R) (e : Exn) :
  ms !! i = Some m -> outcome m = Raise e ->
  exists e', outcome (wait_all ms) = Raise e'.
Proof.
  intros Hi Hm. destruct (outcome (wait_all ms)) as [rs | e'] eqn:Hall; [| eauto].
  apply wait_all_Ok in Hall.
  destruct (Forall2_lookup_l _ _ _ _ _ Hall Hi) as (r & _ & Hr). congruence.
Qed.

(** A load that does not get past format detection prints its message and
    raises. *)
Lemma reader_function_undetected (path : PathLike) (compute processes : bool)
    (e : Exn) :
  match getitem0 (standardize path) with
  | Ok p0 => determine_reader p0
  | Raise e0 => Raise e0
  end = Raise e ->
  reader_function cast determine_reader completion_order path compute processes
  = ([EvPrint (load_message compute)], Raise e).
Proof.
  unfold reader_function. intros H.
  destruct (getitem0 (standardize path)) as [p0 | e0]; simpl.
  - rewrite H. by simpl.
  - by injection H as ->.
Qed.

(** The outcome of a load that got past format detection. *)
Lemma reader_function_outcome (path : PathLike) (compute processes : bool)
    (p0 : string) cls :
  getitem0 (standardize path) = Ok p0 ->
  determine_reader p0 = Ok cls ->
  outcome (reader_function cast determine_reader completion_order
             path compute processes)
  = match outcome (wait_all (submitted cast (standardize path) cls
                               (range (length (standardize path))))) with
    | Ok rs =>
        match stack (data <$> sorted index (completion_order rs)) with
        | Ok st =>
            match getitem0 (sorted index (completion_order rs)) with
            | Ok r0 =>
                Ok [(if compute then compute_array st else st, meta_of r0)]
            | Raise e => Raise e
            end
        | Raise e => Raise e
        end
    | Raise e => Raise e
    end.
Proof.
  intros Hp0 Hcls. unfold reader_function, client_gather.
  rewrite outcome_bind. cbn [outcome emit snd].
  rewrite outcome_bind, outcome_lift, Hp0.
  rewrite outcome_bind, outcome_lift, Hcls.
  rewrite outcome_bind, outcome_cluster_and_client.
  rewrite !outcome_bind. fold (submitted cast (standardize path) cls
                                 (range (length (standardize path)))).
  destruct (outcome (wait_all _)) as [rs | e]; [| done].
  rewrite outcome_ret, outcome_bind, outcome_lift.
  destruct (stack _) as [st | e]; [| done].
  rewrite outcome_bind, outcome_lift.
  destruct (getitem0 (sorted _ _)) as [r0 | e]; reflexivity.
Qed.

Lemma bind_lift_Ok {A B} (a : A) (k : A -> M B) : bind (lift (Ok a)) k = k a.
Proof. unfold bind, lift. by destruct (k a). Qed.

Lemma trace_bind_lift {A B} (r : Result A) (k : A -> M B) :
  trace (bind (lift r) k)
  = match r with
    | Ok a => trace (k a)
    | Raise _ => []
    end.
Proof. destruct r as [a | e]; [by rewrite bind_lift_Ok | done]. Qed.

Lemma trace_bind_silent {A B} (m : M A) (k : A -> M B) :
  (forall a, trace (k a) = []) -> trace (bind m k) = trace m.
Proof.
  intros Hk. rewrite trace_bind.
  destruct (outcome m); by rewrite ?Hk, app_nil_r.
Qed.

(** The trace of a load that got past format detection. *)
Lemma reader_function_trace (path : PathLike) (compute processes : bool)
    (p0 : string) cls :
  getitem0 (standardize path) = Ok p0 ->
  determine_reader p0 = Ok cls ->
  trace (reader_function cast determine_reader completion_order
           path compute processes)
  = EvPrint (load_message compute) :: EvClusterEnter processes ::
    trace (wait_all (submitted cast (standardize path) cls
                       (range (length (standardize path)))))
    ++ [EvClusterExit].
Proof.
  intros Hp0 Hcls. unfold reader_function, client_gather.
  rewrite trace_bind. cbn [outcome trace emit fst snd app].
  rewrite Hp0, bind_lift_Ok, Hcls, bind_lift_Ok.
  rewrite trace_bind_silent by done.
  rewrite trace_cluster_and_client.
  rewrite trace_bind_silent.
  - by rewrite trace_bind_silent.
  - intros rs. rewrite trace_bind_lift. destruct (stack _); [| done].
    rewrite trace_bind_lift. by destruct (getitem0 (sorted _ _)).
Qed.

(** *** The per-path load *)

(** X11: a per-path load succeeds exactly when its reader can be constructed
    and hands out its dimension ordering and its array, and, when the
    ordering has a channel dimension, its channel names; the channel names of
    a reader without channel dimension are never asked for. *)
Theorem load_image_succeeds_iff path cls (i : Z) (c : PyVal) :
  (exists lr, outcome (_load_image cast path cls i c) = Ok lr) <->
  (exists reader d a,
     construct cls path (chunk_by_dims_for c) = Ok reader /\
     dims reader = Ok d /\
     dask_data reader = Ok a /\
     (str_in Dimensions.Channel d = true ->
      exists names, get_channel_names reader = Ok names)).
Proof.
  split.
  - intros [lr (reader & d & a & Hnew & Hd & Ha & _ & _ & Hch)%load_image_Ok].
    exists reader, d, a. split_and!; try done.
    intros [k Hk]%str_in_index. rewrite Hk in Hch.
    destruct Hch as (_ & names & Hn & _). eauto.
  - intros (reader & d & a & Hnew & Hd & Ha & Hnames).
    unfold _load_image, new_reader. unfold chunk_by_dims_for in Hnew.
    destruct (truthy c); rewrite Hnew; simpl; rewrite Hd; simpl.
    all: destruct (str_in Dimensions.Channel d) eqn:Hin;
      [ destruct (str_in_index _ _ Hin) as [k Hk];
        destruct (Hnames eq_refl) as [names Hn];
        rewrite Hk; simpl; rewrite Hn; simpl; rewrite Ha; simpl; eauto
      | simpl; rewrite Ha; simpl; eauto ].
Qed.

(** *** Failure and set-up of a load *)

(** X3: when any of the submitted per-path tasks raises, the load raises: no
    partial result is returned. *)
Theorem failed_task_fails_load (path : PathLike) (compute processes : bool)
    (p0 : string) cls (i : nat) (task : M LoadResult) (e : Exn) :
  getitem0 (standardize path) = Ok p0 ->
  determine_reader p0 = Ok cls ->
  submitted cast (standardize path) cls (range (length (standardize path))) !! i
  = Some task ->
  outcome task = Raise e ->
  exists e',
    outcome (reader_function cast determine_reader completion_order
               path compute processes) = Raise e'.
Proof.
  intros Hp0 Hcls Hi He.
  rewrite (reader_function_outcome _ _ _ _ _ Hp0 Hcls).
  destruct (wait_all_Raise _ _ _ _ Hi He) as [e' ->]. eauto.
Qed.

(** X2: on every path through the loader the cluster is released.  Either the
    load stops before a cluster exists (no first path, or format detection
    raised) and has printed its message only, or a cluster was set up with
    the caller's [processes] flag right after the message and its tear-down
    is the last thing that happened, with nothing but reader constructions in
    between, whether the load returned or raised. *)
Theorem cluster_released (path : PathLike) (compute processes : bool) :
  (trace (reader_function cast determine_reader completion_order
            path compute processes) = [EvPrint (load_message compute)] /\
   exists e,
     outcome (reader_function cast determine_reader completion_order
                path compute processes) = Raise e) \/
  (exists body,
     trace (reader_function cast determine_reader completion_order
              path compute processes)
     = EvPrint (load_message compute) :: EvClusterEnter processes ::
       body ++ [EvClusterExit] /\
     Forall is_new_reader body).
Proof.
  destruct (getitem0 (standardize path)) as [p0 | e] eqn:Hp0.
  - destruct (determine_reader p0) as [cls | e] eqn:Hcls.
    + right. eexists. split; [by apply (reader_function_trace _ _ _ p0 cls) |].
      by apply Forall_trace_submitted.
    + left. rewrite (reader_function_undetected _ _ _ e); [eauto |].
      by rewrite Hp0.
  - left. rewrite (reader_function_undetected _ _ _ e); [eauto |].
    by rewrite Hp0.
Qed.



(** *** The probe and the loader together *)

(** X6: a path the loader can load is a path the probe accepts: whenever
    [reader_function] returns, [get_reader] on the same path returns a
    loader, whatever flags it is given. *)
Theorem loadable_is_accepted (path : PathLike) (compute processes : bool)
    (res : list LayerData) (compute' : bool) (processes' : option bool) :
  outcome (reader_function cast determine_reader completion_order
             path compute processes) = Ok res ->
  outcome (get_reader determine_reader path compute' processes')
  = Ok (Some (partial_reader_function compute' (default true processes'))).
Proof.
  intros (p0 & cls & _ & _ & _ & Hp0 & Hcls & _)%reader_function_Ok.
  by rewrite (get_reader_run _ _ _ _ Hp0), Hcls.
Qed.

(** X7: a path the probe rejects is a path the loader cannot load: where
    [get_reader] returns [None], [reader_function] prints its message and
    raises [UnsupportedFileFormatError], without setting up a cluster. *)
Theorem rejected_is_unloadable (path : PathLike) (compute : bool)
    (processes : option bool) (compute' processes' : bool) :
  outcome (get_reader determine_reader path compute processes) = Ok None ->
  reader_function cast determine_reader completion_order
    path compute' processes'
  = ([EvPrint (load_message compute')], Raise UnsupportedFileFormatError).
Proof.
  intros H. apply reader_function_undetected.
  destruct (getitem0 (standardize path)) as [p0 | e] eqn:Hp0.
  - rewrite (get_reader_run _ _ _ _ Hp0) in H.
    by destruct (determine_reader p0) as [cls | []].
  - unfold get_reader in H. rewrite Hp0 in H. by destruct e.
Qed.

(** X8: the loader a probe returns, called on the probed path, gets past
    format detection: it sets up its cluster, with the [processes] flag of
    the probe ([True] when the probe left it out), and tears it down. *)
Theorem accepted_reaches_cluster (path : PathLike) (compute : bool)
    (processes : option bool) (f : ReaderFunction) :
  outcome (get_reader determine_reader path compute processes) = Ok (Some f) ->
  exists body,
    trace (call cast determine_reader completion_order f path)
    = EvPrint (load_message compute) ::
      EvClusterEnter (default true processes) :: body ++ [EvClusterExit].
Proof.
  intros H.
  destruct (getitem0 (standardize path)) as [p0 | e] eqn:Hp0.
  - rewrite (get_reader_run _ _ _ _ Hp0) in H.
    destruct (determine_reader p0) as [cls | e] eqn:Hcls.
    + injection H as <-. eexists. by apply (reader_function_trace _ _ _ p0 cls).
    + by destruct e.
  - unfold get_reader in H. rewrite Hp0 in H. by destruct e.
Qed.

Section Scheduled.
Hypothesis completion_order_perm : forall l, completion_order l ≡ₚ l.


(** X5: when every per-path task succeeds but two of the loaded arrays differ
    in shape, the load raises [ValueError]. *)
Theorem shape_mismatch_raises_ValueError (path : PathLike)
    (compute processes : bool) (p0 : string) cls (rs : list LoadResult)
    (lr lr' : LoadResult) :
  getitem0 (standardize path) = Ok p0 ->
  determine_reader p0 = Ok cls ->
  Forall2 (fun task r => outcome task = Ok r)
    (submitted cast (standardize path) cls
       (range (length (standardize path)))) rs ->
  lr ∈ rs -> lr' ∈ rs ->
  shape (data lr) ≠ shape (data lr') ->
  outcome (reader_function cast determine_reader completion_order
             path compute processes) = Raise ValueError.
Proof.
  intros Hp0 Hcls Hrs%wait_all_Ok Hlr Hlr' Hne.
  rewrite (reader_function_outcome _ _ _ _ _ Hp0 Hcls), Hrs.
  rewrite (sorted_completion_order completion_order_perm _ _ _ Hrs).
  rewrite (stack_mismatch (data <$> rs) (data lr) (data lr')); try done;
    by apply list_elem_of_fmap_2.
Qed.

(** X9: in the metadata of a load, [name] and [channel_axis] are both [None]
    or both set; a [channel_axis] that is set lies between 1 and the length
    of the dimension ordering of the first path's reader. *)
Theorem channel_metadata_consistent (path : PathLike)
    (compute processes : bool) (res : list LayerData) :
  outcome (reader_function cast determine_reader completion_order
             path compute processes) = Ok res ->
  exists p0 cls chunk_by_dims reader d stacked (meta : gmap string PyVal),
    getitem0 (standardize path) = Ok p0 /\
    determine_reader p0 = Ok cls /\
    construct cls p0 chunk_by_dims = Ok reader /\
    dims reader = Ok d /\
    res = [(stacked, meta)] /\
    (meta !! "name" = Some VNone <-> meta !! "channel_axis" = Some VNone) /\
    (forall k, meta !! "channel_axis" = Some (VInt k) ->
       1 <= k <= Z.of_nat (String.length d) /\
       exists names, meta !! "name" = Some (VStrList names)).
Proof.
  intros (p0 & cls & rs & st & r0 & Hp0 & Hcls & Hrs & Hst & Hr0 & ->)
    %(reader_function_ordered completion_order_perm).
  assert (standardize path !! 0%nat = Some p0) as H0.
  { destruct (standardize path); simpl in Hp0; [done |].
    by injection Hp0 as ->. }
  destruct (tasks_lookup _ _ _ _ _ Hrs H0) as (lr & Hlr & Hrun).
  assert (lr = r0) as ->.
  { destruct rs; [done |]. simpl in *. congruence. }
  apply load_image_Ok in Hrun as (reader & d & a & Hnew & Hd & _ & _ & _ & Hch).
  exists p0, cls. eexists _, reader, d, _, _.
  split_and!; try done; unfold meta_of;
    rewrite (lookup_insert_ne _ "name" "channel_axis"), !lookup_insert_eq by done.
  - destruct (str_index Dimensions.Channel d) as [k | e];
      [destruct Hch as (-> & names & _ & ->) | destruct Hch as (-> & ->)];
      simpl; by split.
  - intros k Hk.
    destruct (str_index Dimensions.Channel d) as [k' | e] eqn:Hidx;
      [destruct Hch as (Hax & names & _ & Hn) | destruct Hch as (Hax & _)];
      rewrite Hax in Hk; simpl in Hk; [| done].
    injection Hk as <-. apply str_index_bounds in Hidx.
    split; [lia |]. rewrite Hn. simpl. eauto.
Qed.

End Scheduled.

End Properties.

(** ** The plugin on the concrete image library *)

Lemma Fixture_completion_order_perm (l : list (@LoadResult Z)) :
  Fixture.completion_order l ≡ₚ l.
Proof. apply reverse_Permutation. Qed.

Lemma Fixture_readers_well_formed :
  readers_well_formed Fixture.determine_reader.
Proof.
  intros p0 cls path chunk reader a Hcls Hnew Ha.
  unfold Fixture.determine_reader in Hcls.
  repeat case_match; simplify_eq; simpl in Hnew; simplify_eq;
    simpl in Ha; simplify_eq; reflexivity.
Qed.

Lemma Fixture_plane_run :
  outcome (reader_function Fixture.cast Fixture.determine_reader
             Fixture.completion_order (PathStr "plane.png") true false)
  = Ok Fixture.plane_layers.
Proof. vm_compute. reflexivity. Qed.

Lemma Fixture_tiff_run :
  outcome (reader_function Fixture.cast Fixture.determine_reader
             Fixture.completion_order (PathList ["a.tiff"; "bb.tiff"]) false true)
  = Ok Fixture.tiff_layers.
Proof. vm_compute. reflexivity. Qed.

(** C1: the flag a per-path task receives is not the caller's [compute] but
    the task's position ([[compute for compute in range(len(paths))]]).  With
    [compute=True] the reader of a single path is built with the YX chunking;
    with [compute=False] the reader of the second of two paths is built
    without chunk configuration. *)
Theorem per_path_flag_is_position :
  trace (Fixture.reader_function (PathStr "a.tiff") true false)
  = [EvPrint "Reader will load image in-memory: True";
     EvClusterEnter false;
     EvNewReader "TiffReader" "a.tiff"
       (Some [Dimensions.SpatialY; Dimensions.SpatialX]);
     EvClusterExit] /\
  trace (Fixture.reader_function (PathList ["a.tiff"; "bb.tiff"]) false false)
  = [EvPrint "Reader will load image in-memory: False";
     EvClusterEnter false;
     EvNewReader "TiffReader" "a.tiff"
       (Some [Dimensions.SpatialY; Dimensions.SpatialX]);
     EvNewReader "TiffReader" "bb.tiff" None;
     EvClusterExit].
Proof. split; vm_compute; reflexivity. Qed.

(** C2 at the two TIFF files, with the results handed back last first. *)
Lemma stack_follows_caller_order_witness :
  exists p0 cls stacked meta,
    getitem0 (standardize (PathList ["a.tiff"; "bb.tiff"])) = Ok p0 /\
    Fixture.determine_reader p0 = Ok cls /\
    Fixture.tiff_layers = [(stacked, meta)] /\
    head (shape stacked)
    = Some (length (standardize (PathList ["a.tiff"; "bb.tiff"]))) /\
    forall (i : nat) (p : string),
      standardize (PathList ["a.tiff"; "bb.tiff"]) !! i = Some p ->
      exists chunk_by_dims reader a slice,
        construct cls p chunk_by_dims = Ok reader /\
        dask_data reader = Ok a /\
        item i stacked = Ok slice /\
        dtype slice = float16 /\
        shape slice = shape (squeeze (astype Fixture.cast float16 a)) /\
        flat slice = flat (squeeze (astype Fixture.cast float16 a)).
Proof.
  exact (stack_follows_caller_order Fixture.cast Fixture.determine_reader
           Fixture.completion_order Fixture_completion_order_perm
           (PathList ["a.tiff"; "bb.tiff"]) false true Fixture.tiff_layers
           Fixture_readers_well_formed Fixture_tiff_run).
Defined.

(** C3, as stated, fails: a file that is missing makes format detection raise
    [FileNotFoundError], which the probe does not catch. *)
Lemma get_reader_propagates_other_failures :
  ~ (forall e : Exn,
       Fixture.determine_reader "missing.tiff" = Raise e ->
       outcome (Fixture.get_reader (PathStr "missing.tiff") true None) = Ok None).
Proof. intros H. specialize (H FileNotFoundError eq_refl). discriminate H. Qed.

Lemma get_reader_catches_unsupported_only_witness :
  outcome (Fixture.get_reader (PathStr "notes.doc") true None) = Ok None /\
  outcome (Fixture.get_reader (PathStr "missing.tiff") true None)
  = Raise FileNotFoundError.
Proof.
  split.
  - exact (get_reader_catches_unsupported_only Fixture.determine_reader
             (PathStr "notes.doc") "notes.doc" true None
             UnsupportedFileFormatError eq_refl eq_refl).
  - exact (get_reader_catches_unsupported_only Fixture.determine_reader
             (PathStr "missing.tiff") "missing.tiff" true None
             FileNotFoundError eq_refl eq_refl).
Defined.

(** C4, as stated, fails: the stack of a single path has a leading axis of
    length one. *)
Lemma single_path_keeps_unit_axis :
  ~ (forall stacked meta,
       outcome (Fixture.reader_function (PathStr "plane.png") true false)
       = Ok [(stacked, meta)] ->
       dtype stacked = float16 /\ 1%nat ∉ shape stacked).
Proof.
  intros H.
  destruct Fixture.plane_layers as [| [stacked meta] rest] eqn:Hlayers;
    [discriminate Hlayers |].
  destruct rest; [| discriminate Hlayers].
  pose proof Fixture_plane_run as Hrun. rewrite Hlayers in Hrun.
  destruct (H _ _ Hrun) as [_ Hno]. apply Hno.
  injection Hlayers as <- _. simpl. left.
Qed.

Lemma stacked_float16_squeezed_witness :
  exists stacked meta (s : list nat),
    Fixture.plane_layers = [(stacked, meta)] /\
    dtype stacked = float16 /\
    shape stacked = length (standardize (PathStr "plane.png")) :: s /\
    1%nat ∉ s.
Proof.
  exact (stacked_float16_squeezed Fixture.cast Fixture.determine_reader
           Fixture.completion_order Fixture_completion_order_perm
           (PathStr "plane.png") true false Fixture.plane_layers
           Fixture_plane_run).
Defined.

(** C5 at the two TIFF files, whose dimension ordering [STCZYX] has the
    channel dimension at position 2. *)
Lemma metadata_from_first_path_witness :
  exists p0 cls chunk_by_dims reader d stacked (meta : gmap string PyVal),
    getitem0 (standardize (PathList ["a.tiff"; "bb.tiff"])) = Ok p0 /\
    Fixture.determine_reader p0 = Ok cls /\
    construct cls p0 chunk_by_dims = Ok reader /\
    dims reader = Ok d /\
    Fixture.tiff_layers = [(stacked, meta)] /\
    (forall k, str_index Dimensions.Channel d = Ok k ->
       meta !! "channel_axis" = Some (VInt (k + 1)) /\
       exists names,
         get_channel_names reader = Ok names /\
         meta !! "name" = Some (VStrList names)) /\
    (str_in Dimensions.Channel d = false ->
       meta !! "channel_axis" = Some VNone /\
       meta !! "name" = Some VNone).
Proof.
  exact (metadata_from_first_path Fixture.cast Fixture.determine_reader
           Fixture.completion_order Fixture_completion_order_perm
           (PathList ["a.tiff"; "bb.tiff"]) false true Fixture.tiff_layers
           Fixture_tiff_run).
Defined.

(** C6 at a document no reader recognises and at a TIFF file. *)
Lemma get_reader_probe_witness :
  outcome (Fixture.get_reader (PathStr "notes.doc") true (Some false)) = Ok None /\
  exists f,
    outcome (Fixture.get_reader (PathStr "a.tiff") true (Some false)) = Ok (Some f) /\
    f = partial_reader_function true false /\
    forall q : PathLike,
      Fixture.call f q = Fixture.reader_function q true false.
Proof.
  split.
  - exact (proj1 (get_reader_probe Fixture.cast Fixture.determine_reader
                    Fixture.completion_order (PathStr "notes.doc") "notes.doc"
                    true false eq_refl) eq_refl).
  - exact (proj2 (get_reader_probe Fixture.cast Fixture.determine_reader
                    Fixture.completion_order (PathStr "a.tiff") "a.tiff"
                    true false eq_refl) Fixture.TiffReader eq_refl).
Defined.

(** C7 at the single plane, loaded with [compute=True]. *)
Lemma materialize_forces_compute_witness :
  exists stacked meta,
    Fixture.plane_layers = [(stacked, meta)] /\
    backing stacked = Numpy.
Proof.
  exact (materialize_forces_compute Fixture.cast Fixture.determine_reader
           Fixture.completion_order (PathStr "plane.png") true false
           Fixture.plane_layers Fixture_plane_run).
Defined.

(** C8 at the two TIFF files. *)
Lemma single_layer_fixed_keys_witness :
  exists stacked (meta : gmap string PyVal),
    Fixture.tiff_layers = [(stacked, meta)] /\
    dom meta = {["name"; "channel_axis"; "is_pyramid"; "visible"]} /\
    (meta !! "channel_axis" = Some VNone \/
     exists k, meta !! "channel_axis" = Some (VInt k)) /\
    meta !! "is_pyramid" = Some (VBool false) /\
    meta !! "visible" = Some (VBool false).
Proof.
  exact (single_layer_fixed_keys Fixture.cast Fixture.determine_reader
           Fixture.completion_order (PathList ["a.tiff"; "bb.tiff"]) false true
           Fixture.tiff_layers Fixture_tiff_run).
Defined.

(** C9 at a TIFF file, probed without a [processes] argument. *)
Lemma get_reader_default_processes_witness :
  Fixture.get_reader (PathStr "a.tiff") false None
  = Fixture.get_reader (PathStr "a.tiff") false (Some true) /\
  partial_reader_function false true = partial_reader_function false true /\
  forall (q : PathLike) (b : bool),
    EvClusterEnter b ∈ trace (Fixture.call (partial_reader_function false true) q) ->
    b = true.
Proof.
  exact (get_reader_default_processes Fixture.cast Fixture.determine_reader
           Fixture.completion_order (PathStr "a.tiff") false
           (partial_reader_function false true) eq_refl).
Defined.

(** ** Further runs on the concrete image libraries *)

(** X11 at the single plane, whose reader has no channel names to give. *)
Lemma load_image_succeeds_iff_witness :
  exists lr,
    outcome (_load_image Fixture.cast "plane.png" Fixture.PngReader 0 (VInt 0))
    = Ok lr.
Proof.
  apply (proj2 (load_image_succeeds_iff Fixture.cast "plane.png"
                  Fixture.PngReader 0 (VInt 0))).
  eexists _, _, _. split_and!; [reflexivity | reflexivity | reflexivity |].
  discriminate.
Defined.

(** X3 at a list whose second file cannot be opened. *)
Lemma failed_task_fails_load_witness :
  exists e',
    outcome (Frames.reader_function (PathList ["a.gif"; "broken.gif"]) false true)
    = Raise e'.
Proof.
  exact (failed_task_fails_load Fixture.cast Frames.determine_reader
           Fixture.completion_order (PathList ["a.gif"; "broken.gif"])
           false true "a.gif" Frames.GifReader 1
           (_load_image Fixture.cast "broken.gif" Frames.GifReader 1 (VInt 1))
           (OtherError "OSError") eq_refl eq_refl eq_refl eq_refl).
Defined.


(** X6 at the single plane. *)
Lemma loadable_is_accepted_witness :
  outcome (Fixture.get_reader (PathStr "plane.png") false None)
  = Ok (Some (partial_reader_function false true)).
Proof.
  exact (loadable_is_accepted Fixture.cast Fixture.determine_reader
           Fixture.completion_order (PathStr "plane.png") true false
           Fixture.plane_layers false None Fixture_plane_run).
Defined.

(** X7 at a document no reader recognises. *)
Lemma rejected_is_unloadable_witness :
  Fixture.reader_function (PathStr "notes.doc") false true
  = ([EvPrint (load_message false)], Raise UnsupportedFileFormatError).
Proof.
  exact (rejected_is_unloadable Fixture.cast Fixture.determine_reader
           Fixture.completion_order (PathStr "notes.doc") true None false true
           eq_refl).
Defined.

(** X8 at a TIFF file probed without a [processes] argument. *)
Lemma accepted_reaches_cluster_witness :
  exists body,
    trace (Fixture.call (partial_reader_function false true) (PathStr "a.tiff"))
    = EvPrint (load_message false) :: EvClusterEnter true ::
      body ++ [EvClusterExit].
Proof.
  exact (accepted_reaches_cluster Fixture.cast Fixture.determine_reader
           Fixture.completion_order (PathStr "a.tiff") false None
           (partial_reader_function false true) eq_refl).
Defined.


Lemma Frames_tasks :
  Forall2 (fun task r => outcome task = Ok r)
    (submitted Fixture.cast (standardize (PathList ["a.gif"; "bb.gif"]))
       Frames.GifReader
       (range (length (standardize (PathList ["a.gif"; "bb.gif"])))))
    Frames.results.
Proof. apply wait_all_Ok. vm_compute. reflexivity. Qed.

(** X5 at a five-frame and a six-frame file. *)
Lemma shape_mismatch_raises_ValueError_witness :
  outcome (Frames.reader_function (PathList ["a.gif"; "bb.gif"]) true false)
  = Raise ValueError.
Proof.
  eapply (shape_mismatch_raises_ValueError Fixture.cast Frames.determine_reader
            Fixture.completion_order Fixture_completion_order_perm
            (PathList ["a.gif"; "bb.gif"]) true false "a.gif" Frames.GifReader
            Frames.results).
  - reflexivity.
  - reflexivity.
  - exact Frames_tasks.
  - unfold Frames.results. apply list_elem_of_here.
  - unfold Frames.results. apply list_elem_of_further, list_elem_of_here.
  - simpl. discriminate.
Defined.

(** X9 at the two TIFF files. *)
Lemma channel_metadata_consistent_witness :
  exists p0 cls chunk_by_dims reader d stacked (meta : gmap string PyVal),
    getitem0 (standardize (PathList ["a.tiff"; "bb.tiff"])) = Ok p0 /\
    Fixture.determine_reader p0 = Ok cls /\
    construct cls p0 chunk_by_dims = Ok reader /\
    dims reader = Ok d /\
    Fixture.tiff_layers = [(stacked, meta)] /\
    (meta !! "name" = Some VNone <-> meta !! "channel_axis" = Some VNone) /\
    (forall k, meta !! "channel_axis" = Some (VInt k) ->
       1 <= k <= Z.of_nat (String.length d) /\
       exists names, meta !! "name" = Some (VStrList names)).
Proof.
  exact (channel_metadata_consistent Fixture.cast Fixture.determine_reader
           Fixture.completion_order Fixture_completion_order_perm
           (PathList ["a.tiff"; "bb.tiff"]) false true Fixture.tiff_layers
           Fixture_tiff_run).
Defined.

